(** * Two-up label composer: a shallow embedding of [app.py]

    The program takes a PDF (or a raster image turned into a one-page PDF),
    rotates every page by a quarter turn and places it twice, side by side,
    on a new page that frames the two copies with no margin.

    Numbers.  The layout is embedded twice.  Over exact rationals [Q]
    (equalities stated with [==]), for the properties that do not depend on
    rounding: which expression each field is, and the order of the
    coordinates, which rounding keeps.  And over binary64 ([Binary64]), the
    arithmetic Python floats have, on which the layout is evaluated where
    rounding decides: an exact difference or a strict inequality that holds
    over [Q] need not hold there.

    Effects.  The script raises and catches Python exceptions, mutates the
    output document it builds, and emits Streamlit widgets.  These are
    embedded in a small state-and-exception monad [M].  The PyMuPDF calls
    ([fitz.open], [convert_to_pdf], [new_page], [show_pdf_page], [tobytes],
    [get_pixmap]) are not part of the repository: they are the fields of the
    interface [Fitz], and results are proved for every implementation of it. *)

From Stdlib Require Import Floats.PrimFloat.
From Stdlib Require Import String Ascii QArith Qminmax Qround Lqa ZArith Bool Lia List.
From Stdlib Require DecimalString.
Set Warnings "-inexact-float".
Import ListNotations.

Open Scope Q_scope.

(** ** Constants (app.py, lines 7-8) *)

Definition MM_TO_PT : Q := 72.0 / 25.4.
Definition DEFAULT_GAP_MM : Q := 3.0.

(** ** Rectangles *)

(** [fitz.Rect(x0, y0, x1, y1)]: the four coordinates, stored as given. *)
Record Rect : Type := mkRect { x0 : Q; y0 : Q; x1 : Q; y1 : Q }.

(** Coordinate-wise equality of rectangles, up to [Qeq]. *)
Definition Rect_eq (r s : Rect) : Prop :=
  x0 r == x0 s /\ y0 r == y0 s /\ x1 r == x1 s /\ y1 r == y1 s.

Definition rect_width (r : Rect) : Q := x1 r - x0 r.

(** A point lies in the closed rectangle [r]. *)
Definition inside (r : Rect) (x y : Q) : Prop :=
  x0 r <= x <= x1 r /\ y0 r <= y <= y1 r.




(** ** The geometry of one output page (app.py, lines 78-95)

    The arithmetic of the loop body of [process_document_to_two_up], with the
    names of its local variables.  [sw] and [sh] are [src_page.rect.width] and
    [src_page.rect.height]; [gap_pt] is computed once before the loop. *)

Record Geometry : Type := mkGeometry {
  rot_w : Q;
  rot_h : Q;
  out_w : Q;
  out_h : Q;
  left_rect : Rect;
  right_rect : Rect
}.

Definition two_up_geometry (gap_pt sw sh : Q) : Geometry :=
  let rot_w := sh in
  let rot_h := sw in
  let out_w := (rot_w * 2.0) + gap_pt in
  let out_h := rot_h in
  let left_rect := mkRect 0 0 rot_w rot_h in
  let right_rect := mkRect (rot_w + gap_pt) 0 ((rot_w * 2.0) + gap_pt) rot_h in
  mkGeometry rot_w rot_h out_w out_h left_rect right_rect.

(** ** The specification's reading of the same computation (spec 4.1-4.3)

    These definitions follow the words of the specification; the theorems
    below compare them with the definitions embedded from the source. *)

Module Spec.

Record PointRect : Type := mkPointRect { width : Q; height : Q }.

Definition PointRect_eq (a b : PointRect) : Prop :=
  width a == width b /\ height a == height b.

(** 4.1: [points = mm * 72 / 25.4]. *)
Definition mmToPoints (mm : Q) : Q := mm * 72 / 25.4.

(** 4.2: [{width: size.height, height: size.width}]. *)
Definition rotatedDimensions (size : PointRect) : PointRect :=
  mkPointRect (height size) (width size).

Record Placement : Type := mkPlacement {
  outputWidth : Q;
  outputHeight : Q;
  leftRect : Rect;
  rightRect : Rect
}.

(** 4.3, steps 1 to 5. *)
Definition twoUpLayout (size : PointRect) (gapMm : Q) : Placement :=
  let rotated := rotatedDimensions size in
  let gapPt := mmToPoints gapMm in
  mkPlacement
    (2 * width rotated + gapPt)
    (height rotated)
    (mkRect 0 0 (width rotated) (height rotated))
    (mkRect (width rotated + gapPt) 0
            (2 * width rotated + gapPt) (height rotated)).

End Spec.

(** ** The same arithmetic in binary64 (app.py, lines 7, 73 and 81-95)

    Python floats are binary64 numbers and every operation rounds to the
    nearest one.  The constant, the conversion of the gap and the geometry of
    one page, with the operations of the source in their order. *)
Module Binary64.

Local Open Scope float_scope.

Definition MM_TO_PT : float := 72.0 / 25.4.


Record Rect : Type := mkRect { x0 : float; y0 : float; x1 : float; y1 : float }.

Record Geometry : Type := mkGeometry {
  rot_w : float;
  rot_h : float;
  out_w : float;
  out_h : float;
  left_rect : Rect;
  right_rect : Rect
}.

Definition two_up_geometry (gap_pt sw sh : float) : Geometry :=
  let rot_w := sh in
  let rot_h := sw in
  let out_w := (rot_w * 2.0) + gap_pt in
  let out_h := rot_h in
  let left_rect := mkRect 0 0 rot_w rot_h in
  let right_rect := mkRect (rot_w + gap_pt) 0 ((rot_w * 2.0) + gap_pt) rot_h in
  mkGeometry rot_w rot_h out_w out_h left_rect right_rect.

Definition rect_width (r : Rect) : float := x1 r - x0 r.

(** The point [(x, y)] lies in the closed rectangle [r]. *)
Definition inside (r : Rect) (x y : float) : bool :=
  (x0 r <=? x) && (x <=? x1 r) && (y0 r <=? y) && (y <=? y1 r).


End Binary64.

(** ** Documents *)

(** A page of a source document: the width and height its [rect] reports,
    in points, and an opaque handle on its content. *)
Record Page : Type := mkPage {
  src_width : Q;
  src_height : Q;
  content : nat
}.

(** [fitz.Document] as a source: its pages in order; [len(doc)] is [length]. *)
Definition Document : Type := list Page.

(** One call [out_page.show_pdf_page(rect, src_doc, pno, rotate=...)] that
    went through: the target rectangle, the source page number, the angle. *)
Record Shown : Type := mkShown {
  target : Rect;
  source_pno : nat;
  rotate : Z
}.

(** A page of the output document: the size given to [new_page] and the
    placements drawn on it, in the order of the calls. *)
Record OutPage : Type := mkOutPage {
  page_w : Q;
  page_h : Q;
  shown : list Shown
}.

Definition OutDoc : Type := list OutPage.

(** ** Exceptions and state *)

Record Exception : Type := Exc { exc_msg : string }.

(** A call either raises ([inl]) or returns ([inr]). *)
Definition result (A : Type) : Type := (Exception + A)%type.

(** Computations over a mutable state [S] that may raise.  The state reached
    when an exception is raised is kept: what was mutated or displayed before
    the exception stays so. *)
Definition M (S A : Type) : Type := S -> result A * S.

Definition ret {S A : Type} (a : A) : M S A := fun s => (inr a, s).

Definition raise {S A : Type} (e : Exception) : M S A := fun s => (inl e, s).

Definition bind {S A B : Type} (m : M S A) (k : A -> M S B) : M S B :=
  fun s =>
    match m s with
    | (inr a, s') => k a s'
    | (inl e, s') => (inl e, s')
    end.

(** [try: body except Exception as e: handler(e)]. *)
Definition try_except {S A : Type} (body : M S A) (handler : Exception -> M S A)
  : M S A :=
  fun s =>
    match body s with
    | (inl e, s') => handler e s'
    | (inr a, s') => (inr a, s')
    end.

(** The outcome of a library call, which does not touch the state. *)
Definition call {S A : Type} (r : result A) : M S A := fun s => (r, s).

Definition get {S : Type} : M S S := fun s => (inr s, s).

Definition modify {S : Type} (f : S -> S) : M S unit := fun s => (inr tt, f s).

(** A block working on an object of its own, created as [init]; the caller
    sees what the block returns or raises, and nothing of the object. *)
Definition with_local {S T A : Type} (init : T) (m : M T A) : M S A :=
  fun s => (fst (m init), s).

Declare Scope monad_scope.
Delimit Scope monad_scope with monad.
Notation "x <- c1 ;; c2" := (bind c1 (fun x => c2))
  (at level 61, c1 at next level, right associativity) : monad_scope.
Notation "c1 ;; c2" := (bind c1 (fun _ => c2))
  (at level 61, right associativity) : monad_scope.
Open Scope monad_scope.

(** [for x in xs: body(x)]. *)
Fixpoint for_ {S A : Type} (xs : list A) (body : A -> M S unit) : M S unit :=
  match xs with
  | [] => ret tt
  | x :: xs' => body x ;; for_ xs' body
  end.

(** [range(n)]. *)
Definition range (n : nat) : list nat := seq 0 n.

(** An integer in an f-string: its decimal digits, after ["-"] when it is
    negative. *)
Definition format_int (n : Z) : string :=
  DecimalString.NilZero.string_of_int (Z.to_int n).

(** [doc[pno]] for a page number [pno >= 0]; out of range the library raises
    [IndexError] with the message ["page <pno> not in document"]. *)
Definition getitem {S : Type} (doc : Document) (pno : nat) : M S Page :=
  match nth_error doc pno with
  | Some p => ret p
  | None =>
      raise (Exc ("page " ++ format_int (Z.of_nat pno) ++ " not in document"))
  end.

(** The result of a computation that uses no state of its caller. *)
Definition eval {A : Type} (m : M unit A) : result A := fst (m tt).

(** ** The PyMuPDF interface

    What the script asks of the library.  [new_page_raises] and
    [show_pdf_page_raises] say whether the call raises, and with what; when
    it does not, the effect on the output document is the one written in
    [new_page] and [show_pdf_page] below. *)
Class Fitz : Type := {
  Bytes : Type;
  (* fitz.open(stream=..., filetype=...) *)
  fitz_open : Bytes -> string -> result Document;
  (* doc.convert_to_pdf() *)
  convert_to_pdf : Document -> result Bytes;
  (* out_doc.new_page(width=..., height=...) *)
  new_page_raises : Q -> Q -> option Exception;
  (* out_page.show_pdf_page(rect, src_doc, pno, rotate=...) *)
  show_pdf_page_raises : Rect -> Document -> nat -> Z -> option Exception;
  (* out_doc.tobytes() *)
  tobytes : OutDoc -> result Bytes;
  (* fitz.open(stream=..., filetype="pdf")[0].get_pixmap(...).tobytes("png") *)
  preview_png : Bytes -> result Bytes
}.

(** Replace the element at index [i], if there is one. *)
Fixpoint update_at {A : Type} (i : nat) (f : A -> A) (l : list A) : list A :=
  match l, i with
  | [], _ => []
  | a :: l', O => f a :: l'
  | a :: l', S i' => a :: update_at i' f l'
  end.

Section Composer.

Context {F : Fitz}.

(** [out_doc.new_page(width, height)]: the new page is appended and its
    handle, here its index in the document, is returned. *)
Definition new_page (width height : Q) : M OutDoc nat :=
  match new_page_raises width height with
  | Some e => raise e
  | None =>
      out_doc <- get ;;
      modify (fun d => d ++ [mkOutPage width height []]) ;;
      ret (length out_doc)
  end.

(** [out_page.show_pdf_page(rect, docsrc, pno, rotate=rotate)]. *)
Definition show_pdf_page (out_page : nat) (rect : Rect) (docsrc : Document)
           (pno : nat) (rotate : Z) : M OutDoc unit :=
  match show_pdf_page_raises rect docsrc pno rotate with
  | Some e => raise e
  | None =>
      modify (update_at out_page (fun p =>
        mkOutPage (page_w p) (page_h p)
                  (shown p ++ [mkShown rect pno rotate])))
  end.

(** app.py, lines 64-106.  [out_doc = fitz.open()] is the empty document;
    [out_doc.close()] releases it and has no other effect. *)
Definition process_document_to_two_up {S : Type} (src_doc : Document)
           (gap_mm : Q) : M S Bytes :=
  with_local ([] : OutDoc)
    (let gap_pt := gap_mm * MM_TO_PT in
     for_ (range (length src_doc)) (fun pno =>
       src_page <- getitem src_doc pno ;;
       let sw := src_width src_page in
       let sh := src_height src_page in
       let g := two_up_geometry gap_pt sw sh in
       out_page <- new_page (out_w g) (out_h g) ;;
       show_pdf_page out_page (left_rect g) src_doc pno 90 ;;
       show_pdf_page out_page (right_rect g) src_doc pno 90) ;;
     out_doc <- get ;;
     pdf_bytes <- call (tobytes out_doc) ;;
     ret pdf_bytes).

End Composer.

(** ** Strings: [str.lower] and [str.endswith]

    File names are strings of 8-bit characters; [lower] maps the letters
    [A]-[Z] to [a]-[z] and leaves the rest, which is what [str.lower] does
    on the characters the suffix tests below look at. *)

Definition lower_char (c : ascii) : ascii :=
  let n := nat_of_ascii c in
  if ((65 <=? n) && (n <=? 90))%nat then ascii_of_nat (n + 32) else c.

Fixpoint lower (s : string) : string :=
  match s with
  | EmptyString => EmptyString
  | String c s' => String (lower_char c) (lower s')
  end.

(** [s.endswith(suffix)]: some tail of [s], possibly [s] itself, is
    [suffix]. *)
Fixpoint endswith (s suffix : string) : bool :=
  String.eqb s suffix ||
  match s with
  | EmptyString => false
  | String _ s' => endswith s' suffix
  end.

(** ** Widgets the script displays *)

(** The lines written in the "Input details" panel (lines 115-119). *)
Inductive InfoLine : Type :=
| PagesDetected (n : nat)
| FirstPageSizePt (w h : Q)
| FirstPageSizeIn (w h : Q).

(** The Streamlit calls of the upload handler, with the data they carry;
    labels, the download file name and the MIME type are presentation. *)
Inductive Widget {F : Fitz} : Type :=
| StWrite (line : InfoLine)
| StSuccess
| StDownloadButton (data : Bytes)
| StImage (png : Bytes)
| StInfo
| StError (e : Exception).

Section Script.

Context {F : Fitz}.

(** What is on screen, in the order it was displayed. *)
Definition UI : Type := list Widget.

Definition st (w : Widget) : M UI unit := modify (fun ui => ui ++ [w]).

(** app.py, lines 30-41.  [img_doc.close()] has no effect here. *)
Definition _image_file_to_pdf_bytes {S : Type} (file_bytes : Bytes)
           (filetype : string) : M S Bytes :=
  img_doc <- call (fitz_open file_bytes filetype) ;;
  page <- getitem img_doc 0 ;;
  pdf_bytes <- call (convert_to_pdf img_doc) ;;
  ret pdf_bytes.

(** app.py, lines 43-62. *)
Definition _open_as_pdf {S : Type} (file_bytes : Bytes) (filename : string)
  : M S Document :=
  let name_lower := lower filename in
  if endswith name_lower ".pdf" then
    call (fitz_open file_bytes "pdf")
  else if endswith name_lower ".png" || endswith name_lower ".jpg"
          || endswith name_lower ".jpeg" then
    let filetype : string :=
      (if endswith name_lower ".png" then "png" else "jpg")%string in
    pdf_bytes <- _image_file_to_pdf_bytes file_bytes filetype ;;
    call (fitz_open pdf_bytes "pdf")
  else
    try_except
      (call (fitz_open file_bytes "pdf"))
      (fun _ =>
         pdf_bytes <- _image_file_to_pdf_bytes file_bytes "jpg" ;;
         call (fitz_open pdf_bytes "pdf")).

(** app.py, lines 114-119: the "Input details" panel.  The first page is
    read once for its width and once for its height. *)
Definition input_details (src_pdf : Document) : M UI unit :=
  st (StWrite (PagesDetected (length src_pdf))) ;;
  if (0 <? length src_pdf)%nat then
    p0 <- getitem src_pdf 0 ;;
    p0' <- getitem src_pdf 0 ;;
    let w := src_width p0 in
    let h := src_height p0' in
    st (StWrite (FirstPageSizePt w h)) ;;
    st (StWrite (FirstPageSizeIn (w / 72.0) (h / 72.0)))
  else ret tt.

(** app.py, lines 108-147: one run of the script with [uploaded] the file
    in the uploader (its name and bytes), [gap_mm] the value of the number
    input and [button] what [st.button] returns.  [src_pdf.close()] has no
    effect here. *)
Definition upload_handler (uploaded : option (string * Bytes)) (gap_mm : Q)
           (button : bool) : M UI unit :=
  match uploaded with
  | None => ret tt
  | Some (name, file_bytes) =>
      try_except
        (src_pdf <- _open_as_pdf file_bytes name ;;
         input_details src_pdf ;;
         if button then
           out_pdf_bytes <- process_document_to_two_up src_pdf gap_mm ;;
           st StSuccess ;;
           st (StDownloadButton out_pdf_bytes) ;;
           try_except
             (png <- call (preview_png out_pdf_bytes) ;;
              st (StImage png))
             (fun _ => st StInfo)
         else ret tt)
        (fun e => st (StError e))
  end.

(** The lines of the "Input details" panel, as data. *)
Definition details_of (src_pdf : Document) : UI :=
  StWrite (PagesDetected (length src_pdf)) ::
  match src_pdf with
  | [] => []
  | p0 :: _ =>
      [StWrite (FirstPageSizePt (src_width p0) (src_height p0));
       StWrite (FirstPageSizeIn (src_width p0 / 72.0) (src_height p0 / 72.0))]
  end.

(** A download button is on screen. *)
Definition offers_download (ui : UI) : Prop :=
  exists data, In (StDownloadButton data) ui.

(** ** What a run of the composer builds and when it raises *)

(** The output page made from source page [pno] when no call raises. *)
Definition two_up_page (gap_pt : Q) (pno : nat) (src_page : Page) : OutPage :=
  let g := two_up_geometry gap_pt (src_width src_page) (src_height src_page) in
  mkOutPage (out_w g) (out_h g)
            [mkShown (left_rect g) pno 90; mkShown (right_rect g) pno 90].

Fixpoint two_up_pages_from (gap_pt : Q) (pno : nat) (pages : list Page)
  : OutDoc :=
  match pages with
  | [] => []
  | p :: ps => two_up_page gap_pt pno p :: two_up_pages_from gap_pt (S pno) ps
  end.

Definition two_up_pages (gap_pt : Q) (src_doc : Document) : OutDoc :=
  two_up_pages_from gap_pt 0 src_doc.

(** The exception the library raises while source page [pno] is composed,
    if any: the three calls of the loop body in their order. *)
Definition page_raises (src_doc : Document) (gap_pt : Q) (pno : nat)
           (src_page : Page) : option Exception :=
  let g := two_up_geometry gap_pt (src_width src_page) (src_height src_page) in
  match new_page_raises (out_w g) (out_h g) with
  | Some e => Some e
  | None =>
      match show_pdf_page_raises (left_rect g) src_doc pno 90 with
      | Some e => Some e
      | None => show_pdf_page_raises (right_rect g) src_doc pno 90
      end
  end.

(** The first exception raised over the pages [pages], numbered from [pno]. *)
Fixpoint first_raise_from (src_doc : Document) (gap_pt : Q) (pno : nat)
         (pages : list Page) : option Exception :=
  match pages with
  | [] => None
  | p :: ps =>
      match page_raises src_doc gap_pt pno p with
      | Some e => Some e
      | None => first_raise_from src_doc gap_pt (S pno) ps
      end
  end.

Definition first_raise (src_doc : Document) (gap_mm : Q) : option Exception :=
  first_raise_from src_doc (gap_mm * MM_TO_PT) 0 src_doc.

Definition page_size (p : Page) : Q * Q := (src_width p, src_height p).

End Script.

(** ** The name of the downloaded file (app.py, lines 126-127) *)

(** The part of [s] before its last ["."], when [s] has one. *)
Fixpoint before_last_dot (s : string) : option string :=
  match s with
  | EmptyString => None
  | String c s' =>
      match before_last_dot s' with
      | Some b => Some (String c b)
      | None => if Ascii.eqb c "." then Some EmptyString else None
      end
  end.

(** [name.rsplit(".", 1)[0]]: the name up to its last ["."], or the whole
    name when it has none. *)
Definition rsplit_dot_head (name : string) : string :=
  match before_last_dot name with
  | Some b => b
  | None => name
  end.

(** [round(x)] for a float [x] without a number of digits: the nearest
    integer, and the even one of the two when [x] is half way. *)
Definition py_round (x : Q) : Z :=
  let f := Qfloor x in
  match Qcompare (x - inject_Z f) (1 # 2) with
  | Lt => f
  | Gt => (f + 1)%Z
  | Eq => if Z.even f then f else (f + 1)%Z
  end.

(** Lines 126-127: [base_name] and [out_name]; [int] of the integer that
    [round] returns is that integer. *)
Definition out_name (uploaded_name : string) (gap_mm : Q) : string :=
  let base_name := rsplit_dot_head uploaded_name in
  (base_name ++ "_rotCCW_two-up_gap" ++ format_int (py_round gap_mm)
   ++ "mm.pdf")%string.

(** The character ["."] occurs in [s]. *)
Fixpoint has_dot (s : string) : bool :=
  match s with
  | EmptyString => false
  | String c s' => Ascii.eqb c "." || has_dot s'
  end.

(** ** Placement inside a page *)

(** The rectangle [r] has its corners in order and lies in the page of
    width [w] and height [h] whose origin is [(0, 0)]. *)
Definition within_page (r : Rect) (w h : Q) : Prop :=
  0 <= x0 r /\ x0 r <= x1 r /\ x1 r <= w /\
  0 <= y0 r /\ y0 r <= y1 r /\ y1 r <= h.

(** Every placement of every page of [out_doc] lies in its page. *)
Definition placements_within (out_doc : OutDoc) : Prop :=
  Forall (fun q : OutPage =>
            Forall (fun sh : Shown => within_page (target sh) (page_w q) (page_h q))
                   (shown q))
         out_doc.

(** The body of the loop of [process_document_to_two_up], named for the
    proofs. *)
Definition loop_body {F : Fitz} (src_doc : Document) (gap_pt : Q) (pno : nat)
  : M OutDoc unit :=
  src_page <- getitem src_doc pno ;;
  let sw := src_width src_page in
  let sh := src_height src_page in
  let g := two_up_geometry gap_pt sw sh in
  out_page <- new_page (out_w g) (out_h g) ;;
  show_pdf_page out_page (left_rect g) src_doc pno 90 ;;
  show_pdf_page out_page (right_rect g) src_doc pno 90.

(** ** A small implementation of the interface

    Used to run the embedding on concrete files.  A file is a PDF with given
    pages, a raster image of a given pixel size, or neither; a page whose
    content handle is [0] cannot be drawn. *)
Module Sim.

Inductive File : Type :=
| PdfFile (pages : Document)
| ImageFile (px_w px_h : Z)
| OutFile (out : OutDoc)
| PngFile (page : OutPage)
| Garbage.

Definition open (f : File) (filetype : string) : result Document :=
  match f with
  | PdfFile d =>
      if String.eqb filetype "pdf" then inr d
      else inl (Exc "cannot open document")
  | ImageFile w h =>
      if String.eqb filetype "png" || String.eqb filetype "jpg"
      then inr [mkPage (inject_Z w) (inject_Z h) 1]
      else inl (Exc "cannot open document")
  | _ => inl (Exc "cannot open document")
  end.

Definition show_raises (rect : Rect) (docsrc : Document) (pno : nat)
           (rotate : Z) : option Exception :=
  match nth_error docsrc pno with
  | None => Some (Exc "bad page number")
  | Some p =>
      if (content p =? 0)%nat then Some (Exc "nothing to show") else None
  end.

Definition preview (f : File) : result File :=
  match f with
  | OutFile (p :: _) => inr (PngFile p)
  | _ => inl (Exc "cannot render")
  end.

Definition lib : Fitz := {|
  Bytes := File;
  fitz_open := open;
  convert_to_pdf := fun d => inr (PdfFile d);
  new_page_raises := fun _ _ => None;
  show_pdf_page_raises := show_raises;
  tobytes := fun o => inr (OutFile o);
  preview_png := preview
|}.

(** Three pages of different sizes, all readable. *)
Definition doc3 : Document :=
  [mkPage 210 297 1; mkPage 100 100 2; mkPage 50 80 3].

(** The same with the content of the second page unreadable. *)
Definition doc3_bad : Document :=
  [mkPage 210 297 1; mkPage 100 100 0; mkPage 50 80 3].

End Sim.

(** ** A library whose image decoder follows the image

    A second implementation of the interface.  An image file has a size in
    pixels, a resolution in dots per inch and a number of frames; the decoder
    opens it as one page per frame, of [pixels * 72 / dpi] points, which is
    what PyMuPDF does with an image that carries a resolution or several
    frames.  A PDF opens with its pages, and conversion keeps the pages. *)
Module Decoder.

Inductive File : Type :=
| ImageFile (px_w px_h dpi : Z) (frames : nat)
| PdfFile (pages : Document)
| OutFile (out : OutDoc).

Definition open (f : File) (filetype : string) : result Document :=
  match f with
  | ImageFile w h dpi frames =>
      if String.eqb filetype "png" || String.eqb filetype "jpg"
      then inr (repeat (mkPage (inject_Z w * 72 / inject_Z dpi)
                               (inject_Z h * 72 / inject_Z dpi) 1) frames)
      else inl (Exc "cannot open document")
  | PdfFile d =>
      if String.eqb filetype "pdf" then inr d
      else inl (Exc "cannot open document")
  | OutFile _ => inl (Exc "cannot open document")
  end.

Definition lib : Fitz := {|
  Bytes := File;
  fitz_open := open;
  convert_to_pdf := fun d => inr (PdfFile d);
  new_page_raises := fun _ _ => None;
  show_pdf_page_raises := fun _ _ _ _ => None;
  tobytes := fun o => inr (OutFile o);
  preview_png := fun f => inr f
|}.

End Decoder.

(** * Proofs *)

(** ** Arithmetic of the conversion factor *)

Lemma MM_TO_PT_value : MM_TO_PT == 360 # 127.
Proof. reflexivity. Qed.


Lemma mm_to_pt_formula (mm : Q) : mm * MM_TO_PT == mm * 72 / 25.4.
Proof. unfold MM_TO_PT. field. Qed.

Lemma mm_to_pt_spec (mm : Q) : mm * MM_TO_PT == Spec.mmToPoints mm.
Proof. unfold Spec.mmToPoints. apply mm_to_pt_formula. Qed.


Lemma two_point_zero : 2.0 == 2.
Proof. reflexivity. Qed.

(** ** Running the loop *)

Lemma update_at_last {A : Type} (f : A -> A) (l : list A) (a : A) :
  update_at (length l) f (l ++ [a]) = l ++ [f a].
Proof. induction l as [| b l IH]; simpl; [reflexivity | now rewrite IH]. Qed.

Lemma two_up_pages_from_length gap_pt pages :
  forall pno, length (two_up_pages_from gap_pt pno pages) = length pages.
Proof. induction pages as [| p ps IH]; intros pno; simpl; [reflexivity | now rewrite IH]. Qed.

Lemma two_up_pages_from_nth gap_pt pages :
  forall pno k,
    nth_error (two_up_pages_from gap_pt pno pages) k =
    option_map (two_up_page gap_pt (pno + k)) (nth_error pages k).
Proof.
  induction pages as [| p ps IH]; intros pno k.
  - destruct k; reflexivity.
  - destruct k as [| k]; simpl.
    + now rewrite Nat.add_0_r.
    + rewrite IH. now rewrite Nat.add_succ_r.
Qed.

Section Loop.

Context {F : Fitz}.
Variable src_doc : Document.
Variable gap_pt : Q.

(** One turn of the loop on a page that is in the document: it raises what
    [page_raises] says, or appends the composed page. *)
Lemma loop_body_run (pno : nat) (p : Page) (out : OutDoc) :
  nth_error src_doc pno = Some p ->
  match page_raises src_doc gap_pt pno p with
  | Some e => fst (loop_body src_doc gap_pt pno out) = inl e
  | None => loop_body src_doc gap_pt pno out
            = (inr tt, out ++ [two_up_page gap_pt pno p])
  end.
Proof.
  intros Hp. unfold loop_body, page_raises, getitem, new_page, show_pdf_page.
  rewrite Hp. unfold bind, ret, get, modify, raise. cbv beta iota zeta.
  set (g := two_up_geometry gap_pt (src_width p) (src_height p)).
  destruct (new_page_raises (out_w g) (out_h g)) as [e |]; [reflexivity |].
  destruct (show_pdf_page_raises (left_rect g) src_doc pno 90) as [e |];
    [reflexivity |].
  destruct (show_pdf_page_raises (right_rect g) src_doc pno 90) as [e |];
    [reflexivity |].
  rewrite !update_at_last. reflexivity.
Qed.

Lemma for_loop_run (pages : list Page) :
  forall (pre : list Page) (out : OutDoc),
    src_doc = pre ++ pages ->
    match first_raise_from src_doc gap_pt (length pre) pages with
    | Some e =>
        fst (for_ (seq (length pre) (length pages)) (loop_body src_doc gap_pt) out)
        = inl e
    | None =>
        for_ (seq (length pre) (length pages)) (loop_body src_doc gap_pt) out
        = (inr tt, out ++ two_up_pages_from gap_pt (length pre) pages)
    end.
Proof.
  induction pages as [| p ps IH]; intros pre out Hdoc.
  - simpl. unfold ret. now rewrite app_nil_r.
  - assert (Hp : nth_error src_doc (length pre) = Some p).
    { rewrite Hdoc, nth_error_app2, Nat.sub_diag by lia. reflexivity. }
    pose proof (loop_body_run (length pre) p out Hp) as Hbody.
    assert (Hdoc' : src_doc = (pre ++ [p]) ++ ps)
      by now rewrite <- app_assoc.
    specialize (IH (pre ++ [p]) (out ++ [two_up_page gap_pt (length pre) p]) Hdoc').
    rewrite length_app, Nat.add_1_r in IH.
    cbn [first_raise_from length seq for_ two_up_pages_from].
    destruct (page_raises src_doc gap_pt (length pre) p) as [e |].
    + unfold bind.
      destruct (loop_body src_doc gap_pt (length pre) out) as [[e' | []] s'];
        simpl in Hbody; [now rewrite Hbody | discriminate].
    + destruct (first_raise_from src_doc gap_pt (S (length pre)) ps) as [e |];
        unfold bind at 1; rewrite Hbody; cbv beta iota.
      * exact IH.
      * rewrite IH, <- app_assoc. reflexivity.
Qed.

End Loop.

(** ** What the composer returns

    [process_document_to_two_up] raises the first exception a library call
    raises, and otherwise returns the bytes of the document made of the
    composed pages, one per source page and in their order. *)
Lemma process_run {F : Fitz} {S : Type} (src_doc : Document) (gap_mm : Q) (s : S) :
  process_document_to_two_up src_doc gap_mm s =
  (match first_raise src_doc gap_mm with
   | Some e => inl e
   | None => tobytes (two_up_pages (gap_mm * MM_TO_PT) src_doc)
   end, s).
Proof.
  unfold process_document_to_two_up, with_local, first_raise, two_up_pages.
  f_equal.
  change (fst ((for_ (seq 0 (length src_doc))
                     (loop_body src_doc (gap_mm * MM_TO_PT)) ;;
                out_doc <- get ;;
                pdf_bytes <- call (tobytes out_doc) ;;
                ret pdf_bytes) []) =
          match first_raise_from src_doc (gap_mm * MM_TO_PT) 0 src_doc with
          | Some e => inl e
          | None => tobytes (two_up_pages_from (gap_mm * MM_TO_PT) 0 src_doc)
          end).
  pose proof (for_loop_run src_doc (gap_mm * MM_TO_PT) src_doc [] [] eq_refl) as H.
  cbn [length app] in H. unfold bind at 1.
  destruct (first_raise_from src_doc (gap_mm * MM_TO_PT) 0 src_doc) as [e |].
  - destruct (for_ _ _ _) as [[e' | []] s']; simpl in H;
      [injection H as ->; reflexivity | discriminate].
  - rewrite H. unfold bind, get, call, ret. cbn.
    destruct (tobytes _); reflexivity.
Qed.

(** ** The layout of one page *)

(** Over exact rationals the embedded arithmetic computes the layout the
    specification writes down in section 4.3. *)
Lemma two_up_geometry_refines_spec (gapMm sw sh : Q) :
  let g := two_up_geometry (gapMm * MM_TO_PT) sw sh in
  let pl := Spec.twoUpLayout (Spec.mkPointRect sw sh) gapMm in
  out_w g == Spec.outputWidth pl /\
  out_h g == Spec.outputHeight pl /\
  Rect_eq (left_rect g) (Spec.leftRect pl) /\
  Rect_eq (right_rect g) (Spec.rightRect pl).
Proof.
  unfold Rect_eq; cbn. pose proof (mm_to_pt_spec gapMm) as Hg.
  rewrite two_point_zero.
  repeat split; try reflexivity; rewrite Hg; ring.
Qed.






(** ** Overlap of the two rectangles *)







(** ** Rotated dimensions *)

(** C4.  The dimensions the code gives the rotated page are those of
    [rotatedDimensions]: the width is the height of the source page and the
    height its width.  Applying the mapping twice gives the original
    dimensions back, and a square page keeps its dimensions. *)
Theorem rotated_dimensions_swap :
  (forall gap_pt sw sh : Q,
     let g := two_up_geometry gap_pt sw sh in
     Spec.mkPointRect (rot_w g) (rot_h g)
     = Spec.rotatedDimensions (Spec.mkPointRect sw sh)) /\
  (forall size : Spec.PointRect,
     Spec.rotatedDimensions size
     = Spec.mkPointRect (Spec.height size) (Spec.width size)) /\
  (forall size : Spec.PointRect,
     Spec.rotatedDimensions (Spec.rotatedDimensions size) = size) /\
  (forall gap_pt gap_pt' sw sh : Q,
     let g := two_up_geometry gap_pt sw sh in
     let g' := two_up_geometry gap_pt' (rot_w g) (rot_h g) in
     (rot_w g', rot_h g') = (sw, sh)) /\
  (forall size : Spec.PointRect,
     Spec.width size == Spec.height size ->
     Spec.PointRect_eq (Spec.rotatedDimensions size) size) /\
  (forall gap_pt s : Q,
     let g := two_up_geometry gap_pt s s in (rot_w g, rot_h g) = (s, s)).
Proof.
  repeat split; try reflexivity.
  - destruct size; reflexivity.
  - cbn. now symmetry.
  - cbn. assumption.
Qed.

Lemma rotated_dimensions_swap_witness :
  Spec.PointRect_eq (Spec.rotatedDimensions (Spec.mkPointRect 100 100))
                    (Spec.mkPointRect 100 100).
Proof.
  exact (proj1 (proj2 (proj2 (proj2 (proj2 rotated_dimensions_swap))))
           (Spec.mkPointRect 100 100) ltac:(reflexivity)).
Defined.

(** ** Degenerate pages and failures *)

Lemma eval_process {F : Fitz} (src_doc : Document) (gap_mm : Q) :
  eval (process_document_to_two_up src_doc gap_mm) =
  match first_raise src_doc gap_mm with
  | Some e => inl e
  | None => tobytes (two_up_pages (gap_mm * MM_TO_PT) src_doc)
  end.
Proof. unfold eval. now rewrite process_run. Qed.





(** ** The composed document *)

Lemma two_up_pages_length (gap_pt : Q) (src_doc : Document) :
  length (two_up_pages gap_pt src_doc) = length src_doc.
Proof. apply two_up_pages_from_length. Qed.

Lemma two_up_pages_nth (gap_pt : Q) (src_doc : Document) (pno : nat) :
  nth_error (two_up_pages gap_pt src_doc) pno =
  option_map (two_up_page gap_pt pno) (nth_error src_doc pno).
Proof. unfold two_up_pages. now rewrite two_up_pages_from_nth. Qed.

Lemma two_up_page_size_only (gap_pt : Q) (pno : nat) (p p' : Page) :
  page_size p = page_size p' -> two_up_page gap_pt pno p = two_up_page gap_pt pno p'.
Proof.
  unfold page_size, two_up_page. intros H. injection H as -> ->. reflexivity.
Qed.

(** C6.  For every source document and gap [gapMm >= 0], when no library
    call raises, the composer returns the bytes of a document with exactly
    one page per source page, in the order of the source pages: output page
    [pno] has the size and the two rectangles computed from the width and
    height of source page [pno] and from the gap, and shows source page
    [pno] in both.  It has no further page, and it is the same page whatever
    the other pages of the document are. *)
Theorem one_output_page_per_source_page {F : Fitz} (src_doc : Document)
        (gapMm : Q) :
  0 <= gapMm ->
  first_raise src_doc gapMm = None ->
  let gapPt := gapMm * MM_TO_PT in
  exists out_doc : OutDoc,
    eval (process_document_to_two_up src_doc gapMm) = tobytes out_doc /\
    length out_doc = length src_doc /\
    (forall (pno : nat) (p : Page),
       nth_error src_doc pno = Some p ->
       let g := two_up_geometry gapPt (src_width p) (src_height p) in
       nth_error out_doc pno
       = Some (mkOutPage (out_w g) (out_h g)
                         [mkShown (left_rect g) pno 90;
                          mkShown (right_rect g) pno 90])) /\
    (forall pno : nat,
       nth_error src_doc pno = None -> nth_error out_doc pno = None) /\
    (forall (other_doc : Document) (pno : nat) (p p' : Page),
       nth_error src_doc pno = Some p ->
       nth_error other_doc pno = Some p' ->
       page_size p = page_size p' ->
       nth_error (two_up_pages gapPt other_doc) pno = nth_error out_doc pno).
Proof.
  intros _ Hnone gapPt. exists (two_up_pages gapPt src_doc).
  split; [| split; [| split; [| split]]].
  - rewrite eval_process, Hnone. reflexivity.
  - apply two_up_pages_length.
  - intros pno p Hp g. rewrite two_up_pages_nth, Hp. reflexivity.
  - intros pno Hp. rewrite two_up_pages_nth, Hp. reflexivity.
  - intros other_doc pno p p' Hp Hp' Hsize.
    rewrite !two_up_pages_nth, Hp, Hp'. cbn.
    now rewrite (two_up_page_size_only gapPt pno p p' Hsize).
Qed.

Lemma one_output_page_per_source_page_witness :
  0 <= 3 /\
  first_raise (F := Sim.lib) Sim.doc3 3 = None /\
  exists out_doc : OutDoc,
    eval (process_document_to_two_up (F := Sim.lib) Sim.doc3 3)
    = inr (Sim.OutFile out_doc) /\
    length out_doc = 3%nat.
Proof.
  split; [discriminate | split; [reflexivity |]].
  destruct (one_output_page_per_source_page (F := Sim.lib) Sim.doc3 3
              ltac:(discriminate) ltac:(reflexivity))
    as (out_doc & Hrun & Hlen & _).
  exists out_doc. split; [exact Hrun | exact Hlen].
Defined.

(** ** Unit conversion *)




(** ** Failures *)

Lemma first_raise_from_none {F : Fitz} (src_doc : Document) (gap_pt : Q)
      (pages : list Page) :
  forall a : nat,
    first_raise_from src_doc gap_pt a pages = None ->
    forall (k : nat) (p : Page),
      nth_error pages k = Some p ->
      page_raises src_doc gap_pt (a + k) p = None.
Proof.
  induction pages as [| q qs IH]; intros a Hnone k p Hk.
  - destruct k; discriminate.
  - cbn in Hnone.
    destruct (page_raises src_doc gap_pt a q) as [e |] eqn:Hq; [discriminate |].
    destruct k as [| k]; cbn in Hk.
    + injection Hk as <-. now rewrite Nat.add_0_r.
    + rewrite Nat.add_succ_r. now apply (IH (S a)).
Qed.

(** The loaders use no state of their caller. *)
Lemma image_file_to_pdf_bytes_run {F : Fitz} {S : Type} (file_bytes : Bytes)
      (filetype : string) (s : S) :
  _image_file_to_pdf_bytes file_bytes filetype s
  = (eval (_image_file_to_pdf_bytes file_bytes filetype), s).
Proof.
  unfold eval, _image_file_to_pdf_bytes, bind, call, getitem, ret, raise.
  destruct (fitz_open file_bytes filetype) as [e | img_doc]; [reflexivity |].
  destruct img_doc as [| p ps]; [reflexivity |]. cbn.
  destruct (convert_to_pdf (p :: ps)) as [e | pdf_bytes]; reflexivity.
Qed.

Lemma open_as_pdf_run {F : Fitz} {S : Type} (file_bytes : Bytes)
      (filename : string) (s : S) :
  _open_as_pdf file_bytes filename s
  = (eval (_open_as_pdf file_bytes filename), s).
Proof.
  unfold eval, _open_as_pdf.
  destruct (endswith (lower filename) ".pdf"); [reflexivity |].
  destruct (endswith (lower filename) ".png" || endswith (lower filename) ".jpg"
            || endswith (lower filename) ".jpeg").
  - unfold bind. rewrite !image_file_to_pdf_bytes_run.
    destruct (eval (_image_file_to_pdf_bytes file_bytes _)); reflexivity.
  - unfold try_except, call.
    destruct (fitz_open file_bytes "pdf") as [e | d]; [| reflexivity].
    unfold bind. rewrite !image_file_to_pdf_bytes_run.
    destruct (eval (_image_file_to_pdf_bytes file_bytes _)); reflexivity.
Qed.

Lemma input_details_run {F : Fitz} (src_pdf : Document) (ui : UI) :
  input_details src_pdf ui = (inr tt, ui ++ details_of src_pdf).
Proof.
  unfold input_details, details_of, st, bind, modify, getitem, ret.
  destruct src_pdf as [| p0 ps]; cbn.
  - reflexivity.
  - now rewrite <- !app_assoc.
Qed.

(** What one run of the script displays. *)
Lemma upload_handler_run {F : Fitz} (name : string) (file_bytes : Bytes)
      (gap_mm : Q) (button : bool) (ui : UI) :
  upload_handler (Some (name, file_bytes)) gap_mm button ui =
  (inr tt,
   ui ++
   match eval (_open_as_pdf file_bytes name) with
   | inl e => [StError e]
   | inr src_pdf =>
       details_of src_pdf ++
       (if button then
          match eval (process_document_to_two_up src_pdf gap_mm) with
          | inl e => [StError e]
          | inr data =>
              [StSuccess; StDownloadButton data;
               match preview_png data with
               | inl _ => StInfo
               | inr png => StImage png
               end]
          end
        else [])
   end).
Proof.
  unfold upload_handler, try_except. unfold bind at 1.
  rewrite open_as_pdf_run.
  destruct (eval (_open_as_pdf file_bytes name)) as [e | src_pdf].
  - reflexivity.
  - unfold bind at 1. rewrite input_details_run.
    destruct button.
    + unfold bind at 1. rewrite process_run. unfold eval. rewrite process_run.
      cbn [fst].
      destruct (match first_raise src_pdf gap_mm with
                | Some e => inl e
                | None => tobytes (two_up_pages (gap_mm * MM_TO_PT) src_pdf)
                end) as [e | data].
      * unfold st, modify. now rewrite <- app_assoc.
      * unfold bind, st, modify, try_except, call.
        destruct (preview_png data) as [e | png];
          now rewrite <- !app_assoc.
    + unfold ret. now rewrite app_nil_r.
Qed.

Lemma details_of_no_download {F : Fitz} (src_pdf : Document) (data : Bytes) :
  ~ In (StDownloadButton data) (details_of src_pdf).
Proof.
  unfold details_of. destruct src_pdf as [| p0 ps]; cbn;
    intros H; repeat (destruct H as [H | H]; [discriminate H |]); exact H.
Qed.

(** C8.  A loader error or an error while a page is composed aborts the whole
    conversion.  When the loader raises, the script displays the error and
    nothing else.  When a library call raises for some page, whatever pages
    were composed before it, the composer raises and returns no document; the
    script then displays the input details and the error, and no download.
    The composer returns bytes only for the complete document, and a download
    button is displayed only with those bytes. *)
Theorem conversion_is_all_or_nothing {F : Fitz} (name : string)
        (file_bytes : Bytes) (gap_mm : Q) (button : bool) :
  let ui := snd (upload_handler (Some (name, file_bytes)) gap_mm button []) in
  (forall e : Exception,
     eval (_open_as_pdf file_bytes name) = inl e ->
     ui = [StError e] /\ ~ offers_download ui) /\
  (forall (src_pdf : Document) (e : Exception),
     eval (_open_as_pdf file_bytes name) = inr src_pdf ->
     button = true ->
     eval (process_document_to_two_up src_pdf gap_mm) = inl e ->
     ui = details_of src_pdf ++ [StError e] /\ ~ offers_download ui) /\
  (forall (src_doc : Document) (pno : nat) (p : Page) (e : Exception),
     nth_error src_doc pno = Some p ->
     page_raises src_doc (gap_mm * MM_TO_PT) pno p = Some e ->
     exists e' : Exception,
       eval (process_document_to_two_up src_doc gap_mm) = inl e') /\
  (forall (src_doc : Document) (data : Bytes),
     eval (process_document_to_two_up src_doc gap_mm) = inr data ->
     first_raise src_doc gap_mm = None /\
     tobytes (two_up_pages (gap_mm * MM_TO_PT) src_doc) = inr data) /\
  (forall data : Bytes,
     In (StDownloadButton data) ui ->
     exists src_pdf : Document,
       eval (_open_as_pdf file_bytes name) = inr src_pdf /\
       first_raise src_pdf gap_mm = None /\
       tobytes (two_up_pages (gap_mm * MM_TO_PT) src_pdf) = inr data).
Proof.
  intros ui. unfold ui. rewrite upload_handler_run. cbn [snd app].
  split; [| split; [| split; [| split]]].
  - intros e He. rewrite He. split; [reflexivity |].
    intros [data [H | []]]. discriminate H.
  - intros src_pdf e Hopen -> Hrun. rewrite Hopen, Hrun.
    split; [reflexivity |].
    intros [data H]. apply in_app_or in H as [H | [H | []]].
    + exact (details_of_no_download _ _ H).
    + discriminate H.
  - intros src_doc pno p e Hp Hraise. rewrite eval_process.
    destruct (first_raise src_doc gap_mm) as [e' |] eqn:Hfirst.
    + now exists e'.
    + pose proof (first_raise_from_none _ _ _ 0%nat Hfirst pno p Hp) as Hnone.
      cbn in Hnone. rewrite Hnone in Hraise. discriminate.
  - intros src_doc data. rewrite eval_process.
    destruct (first_raise src_doc gap_mm) as [e' |]; [discriminate |].
    intros H. now split.
  - intros data Hin.
    destruct (eval (_open_as_pdf file_bytes name)) as [e | src_pdf].
    + destruct Hin as [H | []]. discriminate H.
    + exists src_pdf. split; [reflexivity |].
      apply in_app_or in Hin as [H | H];
        [exfalso; exact (details_of_no_download _ _ H) |].
      destruct button; [| destruct H].
      rewrite eval_process in H.
      destruct (first_raise src_pdf gap_mm) as [e' |].
      * destruct H as [H | []]. discriminate H.
      * destruct (tobytes (two_up_pages (gap_mm * MM_TO_PT) src_pdf))
          as [e' | data'].
        -- destruct H as [H | []]. discriminate H.
        -- destruct H as [H | [H | [H | []]]].
           ++ discriminate H.
           ++ injection H as ->. now split.
           ++ destruct (preview_png data'); discriminate H.
Qed.

Lemma conversion_is_all_or_nothing_witness :
  eval (_open_as_pdf (F := Sim.lib) (Sim.PdfFile Sim.doc3_bad) "labels.pdf")
  = inr Sim.doc3_bad /\
  eval (process_document_to_two_up (F := Sim.lib) Sim.doc3_bad 3)
  = inl (Exc "nothing to show") /\
  snd (upload_handler (F := Sim.lib)
         (Some ("labels.pdf"%string, Sim.PdfFile Sim.doc3_bad)) 3 true [])
  = details_of Sim.doc3_bad ++ [StError (Exc "nothing to show")].
Proof.
  split; [reflexivity | split; [reflexivity |]].
  exact (proj1 (proj1 (proj2
    (conversion_is_all_or_nothing (F := Sim.lib) "labels.pdf"
       (Sim.PdfFile Sim.doc3_bad) 3 true))
    Sim.doc3_bad (Exc "nothing to show") eq_refl eq_refl eq_refl)).
Defined.

(** ** Loading an image *)

(** A name that ends with an image suffix does not end with [.pdf]. *)
Lemma endswith_exclusive (a b : string) (c : ascii) (b' : string) :
  b = String c b' ->
  endswith a b = false ->
  endswith b' a = false ->
  forall s : string, endswith s a = true -> endswith s b = false.
Proof.
  intros Hb Hab Hba. induction s as [| d s IH]; intros Hs.
  - cbn [endswith] in Hs. rewrite orb_false_r in Hs.
    apply String.eqb_eq in Hs. subst a. exact Hab.
  - cbn [endswith] in Hs. apply orb_true_iff in Hs as [Hs | Hs].
    + apply String.eqb_eq in Hs. subst a. exact Hab.
    + cbn [endswith]. rewrite (IH Hs), orb_false_r.
      destruct (String.eqb_spec (String d s) b) as [Heq | Hne]; [| reflexivity].
      rewrite Hb in Heq. injection Heq as _ ->. congruence.
Qed.

Lemma image_name_not_pdf (s : string) :
  endswith s ".png" || endswith s ".jpg" || endswith s ".jpeg" = true ->
  endswith s ".pdf" = false.
Proof.
  intros H. apply orb_true_iff in H as [H | H];
    [apply orb_true_iff in H as [H | H] |];
    revert s H; eapply endswith_exclusive; reflexivity.
Qed.

(** C9.  A file whose name ends with [.png], [.jpg] or [.jpeg], in any
    letter case, is opened by the image decoder with the file type the name
    gives, and the document returned is the one the library gives back after
    conversion, whatever its pages are: the code keeps every page and every
    page size of it.  Nothing limits the document to one page (line 37 reads
    the first page and does not use it) and nothing sets the page size to the
    pixel size, so an image that the decoder opens as several pages, or at a
    size other than its pixel size, is loaded as such. *)
Theorem image_loader_keeps_decoder_pages {F : Fitz} (file_bytes : Bytes)
        (filename : string) (img_doc : Document) (pdf_bytes : Bytes)
        (pdf_doc : Document) :
  let name_lower := lower filename in
  endswith name_lower ".png" || endswith name_lower ".jpg"
  || endswith name_lower ".jpeg" = true ->
  fitz_open file_bytes (if endswith name_lower ".png" then "png" else "jpg")
  = inr img_doc ->
  img_doc <> [] ->
  convert_to_pdf img_doc = inr pdf_bytes ->
  fitz_open pdf_bytes "pdf" = inr pdf_doc ->
  eval (_open_as_pdf file_bytes filename) = inr pdf_doc.
Proof.
  intros name_lower Hname Himg Hne Hconv Hpdf.
  unfold eval, _open_as_pdf. fold name_lower.
  rewrite (image_name_not_pdf name_lower Hname), Hname.
  unfold bind, _image_file_to_pdf_bytes, bind, call, getitem, ret.
  rewrite Himg.
  destruct img_doc as [| p ps]; [contradiction |].
  cbn. rewrite Hconv, Hpdf. reflexivity.
Qed.

(** The code at two images: 600 by 300 pixels at 300 dots per inch in one
    frame, loaded as one page of 144 by 72 points and not 600 by 300; and
    100 by 100 pixels at 72 dots per inch in two frames, loaded as two
    pages. *)
Lemma image_loader_keeps_decoder_pages_witness :
  eval (_open_as_pdf (F := Decoder.lib) (Decoder.ImageFile 600 300 300 1)
                     "Label.PNG")
  = inr (repeat (mkPage (600 * 72 / 300) (300 * 72 / 300) 1) 1) /\
  600 * 72 / 300 == 144 /\ 300 * 72 / 300 == 72 /\
  eval (_open_as_pdf (F := Decoder.lib) (Decoder.ImageFile 100 100 72 2)
                     "frames.jpg")
  = inr (repeat (mkPage (100 * 72 / 72) (100 * 72 / 72) 1) 2).
Proof.
  split; [| split; [reflexivity | split; [reflexivity |]]].
  - exact (image_loader_keeps_decoder_pages (F := Decoder.lib)
             (Decoder.ImageFile 600 300 300 1) "Label.PNG"
             (repeat (mkPage (600 * 72 / 300) (300 * 72 / 300) 1) 1)
             (Decoder.PdfFile (repeat (mkPage (600 * 72 / 300) (300 * 72 / 300) 1) 1))
             (repeat (mkPage (600 * 72 / 300) (300 * 72 / 300) 1) 1)
             eq_refl eq_refl ltac:(discriminate) eq_refl eq_refl).
  - exact (image_loader_keeps_decoder_pages (F := Decoder.lib)
             (Decoder.ImageFile 100 100 72 2) "frames.jpg"
             (repeat (mkPage (100 * 72 / 72) (100 * 72 / 72) 1) 2)
             (Decoder.PdfFile (repeat (mkPage (100 * 72 / 72) (100 * 72 / 72) 1) 2))
             (repeat (mkPage (100 * 72 / 72) (100 * 72 / 72) 1) 2)
             eq_refl eq_refl ltac:(discriminate) eq_refl eq_refl).
Defined.

(** ** Negative gaps *)




(** ** The end-to-end scenarios of the specification, evaluated *)

(** Scenario 1, over exact rationals: an A4 portrait page of 210 by 297
    points with the default gap of 3 mm.  The gap is 1080/127 points
    (8.50394...), the output page is 76518/127 by 210 points (602.50394... by
    210). *)
Example scenario_a4_default_gap :
  let g := two_up_geometry (DEFAULT_GAP_MM * MM_TO_PT) 210 297 in
  DEFAULT_GAP_MM * MM_TO_PT == 1080 # 127 /\
  (rot_w g, rot_h g) = (297, 210) /\
  out_w g == 76518 # 127 /\ out_h g == 210 /\
  Rect_eq (left_rect g) (mkRect 0 0 297 210) /\
  Rect_eq (right_rect g) (mkRect (38799 # 127) 0 (76518 # 127) 210).
Proof. unfold Rect_eq; cbn. repeat split; reflexivity. Qed.

(** Scenario 3: a document of three pages gives three output pages, each
    from its own source page. *)
Example scenario_three_pages :
  eval (process_document_to_two_up (F := Sim.lib) Sim.doc3 0)
  = inr (Sim.OutFile (two_up_pages (0 * MM_TO_PT) Sim.doc3)) /\
  length (two_up_pages (0 * MM_TO_PT) Sim.doc3) = 3%nat.
Proof. split; reflexivity. Qed.

(** A page that cannot be drawn in the middle of the document: the composer
    raises, and the script shows the input details and the error only. *)
Example scenario_unreadable_page :
  upload_handler (F := Sim.lib)
    (Some ("Labels.PDF"%string, Sim.PdfFile Sim.doc3_bad)) 3 true []
  = (inr tt,
     [StWrite (PagesDetected 3);
      StWrite (FirstPageSizePt 210 297);
      StWrite (FirstPageSizeIn (210 / 72.0) (297 / 72.0));
      StError (Exc "nothing to show")]).
Proof. reflexivity. Qed.

(** * Further properties of the code *)

(** ** Placements and the page *)

Lemma two_up_page_within (gap_pt : Q) (pno : nat) (p : Page) :
  0 <= gap_pt -> 0 <= src_width p -> 0 <= src_height p ->
  Forall (fun sh : Shown =>
            within_page (target sh) (page_w (two_up_page gap_pt pno p))
                        (page_h (two_up_page gap_pt pno p)))
         (shown (two_up_page gap_pt pno p)).
Proof.
  intros Hg Hw Hh. unfold two_up_page, within_page; cbn.
  repeat constructor; cbn; lra.
Qed.

Lemma two_up_pages_from_within (gap_pt : Q) (pages : list Page) :
  0 <= gap_pt ->
  Forall (fun p : Page => 0 <= src_width p /\ 0 <= src_height p) pages ->
  forall pno : nat, placements_within (two_up_pages_from gap_pt pno pages).
Proof.
  intros Hg Hpages. induction Hpages as [| p ps [Hw Hh] _ IH]; intros pno.
  - constructor.
  - cbn [two_up_pages_from]. constructor.
    + now apply two_up_page_within.
    + apply IH.
Qed.

(** X1.  When the gap and the dimensions of every source page are not
    negative, a document the composer returns has every placement inside its
    page: each rectangle has its corners in order and lies between 0 and the
    page width horizontally and between 0 and the page height vertically. *)
Theorem composed_placements_inside_pages {F : Fitz} (src_doc : Document)
        (gap_mm : Q) (data : Bytes) :
  0 <= gap_mm ->
  Forall (fun p : Page => 0 <= src_width p /\ 0 <= src_height p) src_doc ->
  eval (process_document_to_two_up src_doc gap_mm) = inr data ->
  exists out_doc : OutDoc,
    tobytes out_doc = inr data /\
    length out_doc = length src_doc /\
    placements_within out_doc.
Proof.
  intros Hgap Hpages Hrun. rewrite eval_process in Hrun.
  destruct (first_raise src_doc gap_mm) as [e |]; [discriminate |].
  exists (two_up_pages (gap_mm * MM_TO_PT) src_doc).
  split; [exact Hrun | split; [apply two_up_pages_length |]].
  apply two_up_pages_from_within; [| exact Hpages].
  rewrite MM_TO_PT_value. lra.
Qed.

Lemma composed_placements_inside_pages_witness :
  exists out_doc : OutDoc,
    Sim.OutFile (two_up_pages (3 * MM_TO_PT) Sim.doc3) = Sim.OutFile out_doc /\
    placements_within out_doc.
Proof.
  destruct (composed_placements_inside_pages (F := Sim.lib) Sim.doc3 3
              (Sim.OutFile (two_up_pages (3 * MM_TO_PT) Sim.doc3))
              ltac:(discriminate)
              ltac:(repeat constructor; discriminate)
              eq_refl)
    as (out_doc & Hbytes & _ & Hin).
  exists out_doc. split; [| exact Hin].
  cbn in Hbytes. now injection Hbytes as ->.
Defined.

(** X3.  Widening the gap leaves the left rectangle, the rotated dimensions
    and the page height as they are, and the right rectangle at the same
    height; it never moves an edge of the right rectangle to the left and
    never narrows the page. *)
Theorem wider_gap_moves_right_copy (gap_pt gap_pt' sw sh : Q) :
  gap_pt <= gap_pt' ->
  let g := two_up_geometry gap_pt sw sh in
  let g' := two_up_geometry gap_pt' sw sh in
  left_rect g' = left_rect g /\
  (rot_w g', rot_h g', out_h g') = (rot_w g, rot_h g, out_h g) /\
  (y0 (right_rect g'), y1 (right_rect g'))
  = (y0 (right_rect g), y1 (right_rect g)) /\
  x0 (right_rect g) <= x0 (right_rect g') /\
  x1 (right_rect g) <= x1 (right_rect g') /\
  out_w g <= out_w g'.
Proof.
  intros Hle g g'. cbn. repeat split; lra.
Qed.

Lemma wider_gap_moves_right_copy_witness :
  out_w (two_up_geometry 0 100 100) <= out_w (two_up_geometry 5 100 100).
Proof.
  exact (proj2 (proj2 (proj2 (proj2 (proj2
    (wider_gap_moves_right_copy 0 5 100 100 ltac:(discriminate))))))).
Defined.

(** ** Which exception the composer raises *)

Lemma first_raise_from_first_failure {F : Fitz} (src_doc : Document)
      (gap_pt : Q) (p : Page) (post : list Page) (e : Exception) :
  forall (pre : list Page) (a : nat),
    (forall (k : nat) (q : Page),
       nth_error pre k = Some q -> page_raises src_doc gap_pt (a + k) q = None) ->
    page_raises src_doc gap_pt (a + length pre) p = Some e ->
    first_raise_from src_doc gap_pt a (pre ++ p :: post) = Some e.
Proof.
  induction pre as [| q qs IH]; intros a Hpre Hp.
  - cbn in *. rewrite Nat.add_0_r in Hp. now rewrite Hp.
  - cbn [app first_raise_from].
    pose proof (Hpre 0%nat q eq_refl) as Hq. rewrite Nat.add_0_r in Hq.
    rewrite Hq. apply IH.
    + intros k r Hk. rewrite Nat.add_succ_l, <- Nat.add_succ_r.
      now apply Hpre.
    + cbn [length] in Hp. now rewrite Nat.add_succ_l, <- Nat.add_succ_r.
Qed.

(** X4.  The composer stops at the first page for which a library call
    raises and raises that exception: when the calls for the pages before
    page [length pre] do not raise and a call for that page raises [e], the
    result is [e], whatever the pages after it are or would raise.  For one
    page the calls are tried in the order [new_page], [show_pdf_page] on the
    left rectangle, [show_pdf_page] on the right rectangle. *)
Theorem first_failing_page_is_reported {F : Fitz} (pre : list Page) (p : Page)
        (post : list Page) (gap_mm : Q) (e : Exception) :
  let src_doc := pre ++ p :: post in
  let gap_pt := gap_mm * MM_TO_PT in
  let g := two_up_geometry gap_pt (src_width p) (src_height p) in
  (forall (k : nat) (q : Page),
     nth_error pre k = Some q -> page_raises src_doc gap_pt k q = None) ->
  (new_page_raises (out_w g) (out_h g) = Some e \/
   (new_page_raises (out_w g) (out_h g) = None /\
    show_pdf_page_raises (left_rect g) src_doc (length pre) 90 = Some e) \/
   (new_page_raises (out_w g) (out_h g) = None /\
    show_pdf_page_raises (left_rect g) src_doc (length pre) 90 = None /\
    show_pdf_page_raises (right_rect g) src_doc (length pre) 90 = Some e)) ->
  eval (process_document_to_two_up src_doc gap_mm) = inl e.
Proof.
  intros src_doc gap_pt g Hpre Hcall.
  rewrite eval_process. unfold first_raise. fold gap_pt.
  rewrite (first_raise_from_first_failure src_doc gap_pt p post e pre 0%nat);
    [reflexivity | exact Hpre |].
  cbn [Nat.add]. unfold page_raises. fold g.
  destruct Hcall as [Hn | [[Hn Hl] | (Hn & Hl & Hr)]].
  - now rewrite Hn.
  - now rewrite Hn, Hl.
  - now rewrite Hn, Hl, Hr.
Qed.

Lemma first_failing_page_is_reported_witness :
  eval (process_document_to_two_up (F := Sim.lib) Sim.doc3_bad 3)
  = inl (Exc "nothing to show").
Proof.
  apply (first_failing_page_is_reported (F := Sim.lib)
           [mkPage 210 297 1] (mkPage 100 100 0) [mkPage 50 80 3] 3
           (Exc "nothing to show")).
  - intros [| k] q Hk; cbn in Hk; [| destruct k; discriminate Hk].
    injection Hk as <-. reflexivity.
  - right. left. split; reflexivity.
Defined.

(** ** Edge cases of the script *)

(** X5.  A document without pages is not rejected: the composer creates no
    page and returns what serialising the empty document gives, and the
    details panel shows the page count only, without reading a first
    page. *)
Theorem empty_document_is_composed {F : Fitz} (name : string)
        (file_bytes : Bytes) (gap_mm : Q) (button : bool) :
  eval (_open_as_pdf file_bytes name) = inr [] ->
  eval (process_document_to_two_up [] gap_mm) = tobytes [] /\
  snd (upload_handler (Some (name, file_bytes)) gap_mm button [])
  = StWrite (PagesDetected 0) ::
    (if button then
       match tobytes [] with
       | inl e => [StError e]
       | inr data =>
           [StSuccess; StDownloadButton data;
            match preview_png data with
            | inl _ => StInfo
            | inr png => StImage png
            end]
       end
     else []).
Proof.
  intros Hopen.
  assert (Hrun : eval (process_document_to_two_up [] gap_mm) = tobytes [])
    by now rewrite eval_process.
  split; [exact Hrun |].
  rewrite upload_handler_run, Hopen, Hrun. cbn [snd app details_of length].
  destruct button; reflexivity.
Qed.

Lemma empty_document_is_composed_witness :
  snd (upload_handler (F := Sim.lib)
         (Some ("empty.pdf"%string, Sim.PdfFile [])) 3 true [])
  = [StWrite (PagesDetected 0); StSuccess;
     @StDownloadButton Sim.lib (Sim.OutFile []); StInfo].
Proof.
  exact (proj2 (empty_document_is_composed (F := Sim.lib) "empty.pdf"
                  (Sim.PdfFile []) 3 true eq_refl)).
Defined.

(** X6.  A run of the script never raises, whatever the file, the gap and
    the library do: every exception is caught and displayed.  What was on
    screen stays, and the run only adds widgets after it. *)
Theorem script_never_raises {F : Fitz} (uploaded : option (string * Bytes))
        (gap_mm : Q) (button : bool) (ui : UI) :
  exists added : UI,
    upload_handler uploaded gap_mm button ui = (inr tt, ui ++ added).
Proof.
  destruct uploaded as [[name file_bytes] |].
  - rewrite upload_handler_run. eexists. reflexivity.
  - exists []. cbn. unfold ret. now rewrite app_nil_r.
Qed.

(** X7.  When the composer returns the output bytes, the success message and
    the download button are displayed whether or not the preview can be
    rendered: a preview that raises is replaced by an information message,
    and no error is displayed. *)
Theorem preview_failure_keeps_download {F : Fitz} (name : string)
        (file_bytes : Bytes) (gap_mm : Q) (src_pdf : Document) (data : Bytes) :
  eval (_open_as_pdf file_bytes name) = inr src_pdf ->
  eval (process_document_to_two_up src_pdf gap_mm) = inr data ->
  let ui := snd (upload_handler (Some (name, file_bytes)) gap_mm true []) in
  ui = details_of src_pdf ++
       [StSuccess; StDownloadButton data;
        match preview_png data with
        | inl _ => StInfo
        | inr png => StImage png
        end] /\
  In (StDownloadButton data) ui /\
  (forall e : Exception, ~ In (StError e) ui).
Proof.
  intros Hopen Hrun ui.
  assert (Hui : ui = details_of src_pdf ++
                     [StSuccess; StDownloadButton data;
                      match preview_png data with
                      | inl _ => StInfo
                      | inr png => StImage png
                      end]).
  { unfold ui. rewrite upload_handler_run, Hopen, Hrun. reflexivity. }
  split; [exact Hui | split].
  - rewrite Hui. apply in_or_app. right. right. left. reflexivity.
  - intros e. rewrite Hui. intros H. apply in_app_or in H as [H | H].
    + unfold details_of in H. destruct src_pdf as [| p0 ps]; cbn in H;
        repeat (destruct H as [H | H]; [discriminate H |]); exact H.
    + destruct H as [H | [H | [H | []]]]; try discriminate H.
      destruct (preview_png data); discriminate H.
Qed.

Lemma preview_failure_keeps_download_witness :
  In (@StDownloadButton Sim.lib (Sim.OutFile []))
     (snd (upload_handler (F := Sim.lib)
             (Some ("empty.pdf"%string, Sim.PdfFile [])) 3 true [])) /\
  Sim.preview (Sim.OutFile []) = inl (Exc "cannot render").
Proof.
  split; [| reflexivity].
  exact (proj1 (proj2
    (preview_failure_keeps_download (F := Sim.lib) "empty.pdf"
       (Sim.PdfFile []) 3 [] (Sim.OutFile []) eq_refl eq_refl))).
Defined.

(** X8.  Without the button, a file that loads is only described: the run
    displays the details panel and nothing else, and the document is not
    composed, so that no error of the composer can appear. *)
Theorem no_button_no_conversion {F : Fitz} (name : string)
        (file_bytes : Bytes) (gap_mm : Q) (src_pdf : Document) :
  eval (_open_as_pdf file_bytes name) = inr src_pdf ->
  snd (upload_handler (Some (name, file_bytes)) gap_mm false [])
  = details_of src_pdf.
Proof.
  intros Hopen. rewrite upload_handler_run, Hopen. cbn [snd app].
  apply app_nil_r.
Qed.

Lemma no_button_no_conversion_witness :
  first_raise (F := Sim.lib) Sim.doc3_bad 3 = Some (Exc "nothing to show") /\
  snd (upload_handler (F := Sim.lib)
         (Some ("labels.pdf"%string, Sim.PdfFile Sim.doc3_bad)) 3 false [])
  = details_of Sim.doc3_bad.
Proof.
  split; [reflexivity |].
  exact (no_button_no_conversion (F := Sim.lib) "labels.pdf"
           (Sim.PdfFile Sim.doc3_bad) 3 Sim.doc3_bad eq_refl).
Defined.

(** X9.  A run that starts from an empty screen never displays an error
    together with a success message or a download button, and it displays at
    most one error, as its last widget. *)
Theorem error_excludes_download {F : Fitz} (name : string) (file_bytes : Bytes)
        (gap_mm : Q) (button : bool) (e : Exception) :
  let ui := snd (upload_handler (Some (name, file_bytes)) gap_mm button []) in
  In (StError e) ui ->
  ~ offers_download ui /\ ~ In StSuccess ui /\
  exists details : UI,
    ui = details ++ [StError e] /\ forall e', ~ In (StError e') details.
Proof.
  intros ui. unfold ui. rewrite upload_handler_run. cbn [snd app].
  assert (Hdet : forall (d : Document) (w : Widget),
             In w (details_of d) -> exists l, w = StWrite l).
  { intros d w H. unfold details_of in H. destruct d as [| p0 ps]; cbn in H;
      repeat (destruct H as [H | H]; [eexists; symmetry; exact H |]);
      destruct H. }
  destruct (eval (_open_as_pdf file_bytes name)) as [e0 | src_pdf].
  - intros [H | []]. injection H as ->.
    split; [| split].
    + intros [data [H | []]]. discriminate H.
    + intros [H | []]. discriminate H.
    + exists []. split; [reflexivity | intros e' []].
  - destruct button.
    + destruct (eval (process_document_to_two_up src_pdf gap_mm)) as [e0 | data].
      * intros H. apply in_app_or in H as [H | [H | []]].
        { apply Hdet in H as [l H]. discriminate H. }
        injection H as ->. split; [| split].
        -- intros [data H]. apply in_app_or in H as [H | [H | []]];
             [apply Hdet in H as [l H] |]; discriminate H.
        -- intros H. apply in_app_or in H as [H | [H | []]];
             [apply Hdet in H as [l H] |]; discriminate H.
        -- exists (details_of src_pdf). split; [reflexivity |].
           intros e' H. apply Hdet in H as [l H]. discriminate H.
      * intros H. exfalso. apply in_app_or in H as [H | H].
        { apply Hdet in H as [l H]. discriminate H. }
        destruct H as [H | [H | [H | []]]]; try discriminate H.
        destruct (preview_png data); discriminate H.
    + intros H. exfalso. rewrite app_nil_r in H.
      apply Hdet in H as [l H]. discriminate H.
Qed.

Lemma error_excludes_download_witness :
  ~ offers_download
      (snd (upload_handler (F := Sim.lib)
              (Some ("labels.pdf"%string, Sim.PdfFile Sim.doc3_bad)) 3 true [])).
Proof.
  refine (proj1 (error_excludes_download (F := Sim.lib) "labels.pdf"
                   (Sim.PdfFile Sim.doc3_bad) 3 true (Exc "nothing to show") _)).
  cbn. right. right. right. left. reflexivity.
Defined.

(** ** Choosing the loader from the file name *)

Lemma lower_char_idempotent (c : ascii) : lower_char (lower_char c) = lower_char c.
Proof.
  unfold lower_char.
  destruct ((65 <=? nat_of_ascii c) && (nat_of_ascii c <=? 90))%nat eqn:Hup;
    [| now rewrite Hup].
  apply andb_true_iff in Hup as [H1 H2].
  apply Nat.leb_le in H1, H2.
  rewrite nat_ascii_embedding by lia.
  replace ((nat_of_ascii c + 32 <=? 90)%nat) with false
    by (symmetry; apply Nat.leb_gt; lia).
  now rewrite andb_false_r.
Qed.

Lemma lower_idempotent (s : string) : lower (lower s) = lower s.
Proof.
  induction s as [| c s IH]; cbn; [reflexivity |].
  now rewrite lower_char_idempotent, IH.
Qed.

(** X10.  The loader is chosen from the lower-cased file name only, and
    lower-casing a name twice changes nothing: a file is opened in the same
    way under its name and under that name in lower case, so the letter case
    of the extension does not matter. *)
Theorem loader_ignores_letter_case {F : Fitz} (file_bytes : Bytes)
        (filename : string) :
  lower (lower filename) = lower filename /\
  eval (_open_as_pdf file_bytes (lower filename))
  = eval (_open_as_pdf file_bytes filename) /\
  (forall other : string,
     lower other = lower filename ->
     eval (_open_as_pdf file_bytes other)
     = eval (_open_as_pdf file_bytes filename)).
Proof.
  split; [apply lower_idempotent | split].
  - unfold _open_as_pdf. now rewrite lower_idempotent.
  - intros other H. unfold _open_as_pdf. now rewrite H.
Qed.

Lemma loader_ignores_letter_case_witness :
  eval (_open_as_pdf (F := Sim.lib) (Sim.ImageFile 640 480) "Label.JPEG")
  = eval (_open_as_pdf (F := Sim.lib) (Sim.ImageFile 640 480) "label.jpeg").
Proof.
  exact (proj2 (proj2 (loader_ignores_letter_case (F := Sim.lib)
                         (Sim.ImageFile 640 480) "label.jpeg"))
           "Label.JPEG"%string eq_refl).
Defined.

(** X11.  A file whose name ends with [.pdf] is opened as a PDF and in no
    other way: the result is that of the library on the file bytes, and when
    the library raises, the loader raises the same exception without trying
    the file as an image. *)
Theorem pdf_name_has_no_fallback {F : Fitz} (file_bytes : Bytes)
        (filename : string) :
  endswith (lower filename) ".pdf" = true ->
  eval (_open_as_pdf file_bytes filename) = fitz_open file_bytes "pdf" /\
  (forall e : Exception,
     fitz_open file_bytes "pdf" = inl e ->
     eval (_open_as_pdf file_bytes filename) = inl e).
Proof.
  intros Hname.
  assert (H : eval (_open_as_pdf file_bytes filename) = fitz_open file_bytes "pdf").
  { unfold eval, _open_as_pdf. rewrite Hname. reflexivity. }
  split; [exact H | intros e He; now rewrite H].
Qed.

Lemma pdf_name_has_no_fallback_witness :
  eval (_open_as_pdf (F := Sim.lib) (Sim.ImageFile 640 480) "scan.pdf")
  = inl (Exc "cannot open document").
Proof.
  exact (proj2 (pdf_name_has_no_fallback (F := Sim.lib)
                  (Sim.ImageFile 640 480) "scan.pdf" eq_refl)
           (Exc "cannot open document") eq_refl).
Defined.

(** X12.  A file whose name has none of the four known endings is first
    tried as a PDF.  When that works the document is returned.  When it
    raises, the exception is dropped and the file is loaded as a JPEG image:
    the result, document or exception, is that of the image path alone. *)
Theorem unknown_name_falls_back_to_jpg {F : Fitz} (file_bytes : Bytes)
        (filename : string) :
  endswith (lower filename) ".pdf" = false ->
  endswith (lower filename) ".png" || endswith (lower filename) ".jpg"
  || endswith (lower filename) ".jpeg" = false ->
  (forall d : Document,
     fitz_open file_bytes "pdf" = inr d ->
     eval (_open_as_pdf file_bytes filename) = inr d) /\
  (forall e : Exception,
     fitz_open file_bytes "pdf" = inl e ->
     eval (_open_as_pdf file_bytes filename)
     = match eval (_image_file_to_pdf_bytes file_bytes "jpg") with
       | inl e' => inl e'
       | inr pdf_bytes => fitz_open pdf_bytes "pdf"
       end).
Proof.
  intros Hpdf Himg. split.
  - intros d Hd. unfold eval, _open_as_pdf.
    rewrite Hpdf, Himg. unfold try_except, call. now rewrite Hd.
  - intros e He. unfold eval, _open_as_pdf.
    rewrite Hpdf, Himg. unfold try_except, call. rewrite He. unfold bind.
    destruct (_image_file_to_pdf_bytes file_bytes "jpg" tt) as [[e' | b] s'];
      reflexivity.
Qed.

Lemma unknown_name_falls_back_to_jpg_witness :
  eval (_open_as_pdf (F := Sim.lib) (Sim.ImageFile 640 480) "photo.bmp")
  = inr [mkPage 640 480 1].
Proof.
  exact (proj2 (unknown_name_falls_back_to_jpg (F := Sim.lib)
                  (Sim.ImageFile 640 480) "photo.bmp" eq_refl eq_refl)
           (Exc "cannot open document") eq_refl).
Defined.

(** X13.  The image path needs a first page and converts the whole
    document.  When the library opens the image as a document without pages,
    reading its first page raises the library's "page 0 not in document" and
    nothing is converted.  When the document has pages, however many, the
    bytes returned are the conversion of all of it, not of its first page
    only, and an exception of the conversion is passed on. *)
Theorem image_path_converts_whole_document {F : Fitz} (file_bytes : Bytes)
        (filetype : string) (img_doc : Document) :
  fitz_open file_bytes filetype = inr img_doc ->
  (img_doc = [] ->
   eval (_image_file_to_pdf_bytes file_bytes filetype)
   = inl (Exc "page 0 not in document")) /\
  (img_doc <> [] ->
   eval (_image_file_to_pdf_bytes file_bytes filetype)
   = convert_to_pdf img_doc).
Proof.
  intros Hopen.
  unfold eval, _image_file_to_pdf_bytes, bind, call, getitem, ret, raise.
  rewrite Hopen. split.
  - intros ->. reflexivity.
  - intros Hne. destruct img_doc as [| p ps]; [contradiction |]. cbn.
    destruct (convert_to_pdf (p :: ps)); reflexivity.
Qed.

Lemma image_path_converts_whole_document_witness :
  eval (_image_file_to_pdf_bytes (F := Decoder.lib)
          (Decoder.ImageFile 100 100 72 2) "jpg")
  = inr (Decoder.PdfFile (repeat (mkPage (100 * 72 / 72) (100 * 72 / 72) 1) 2)) /\
  eval (_image_file_to_pdf_bytes (F := Decoder.lib)
          (Decoder.ImageFile 100 100 72 0) "jpg")
  = inl (Exc "page 0 not in document").
Proof.
  split.
  - exact (proj2 (image_path_converts_whole_document (F := Decoder.lib)
                    (Decoder.ImageFile 100 100 72 2) "jpg"
                    (repeat (mkPage (100 * 72 / 72) (100 * 72 / 72) 1) 2) eq_refl)
             ltac:(discriminate)).
  - exact (proj1 (image_path_converts_whole_document (F := Decoder.lib)
                    (Decoder.ImageFile 100 100 72 0) "jpg" [] eq_refl)
             eq_refl).
Defined.

(** ** File names *)

Lemma endswith_append (pre suffix : string) :
  endswith (pre ++ suffix) suffix = true.
Proof.
  induction pre as [| c pre IH]; cbn [append].
  - destruct suffix; cbn [endswith]; rewrite String.eqb_refl; reflexivity.
  - cbn [endswith]. rewrite IH. apply orb_true_r.
Qed.

(** X14.  [endswith s suffix] holds exactly when [s] is some string followed
    by [suffix]; every string ends with the empty string and with itself. *)
Theorem endswith_is_suffix (s suffix : string) :
  (endswith s suffix = true <-> exists pre : string, s = (pre ++ suffix)%string) /\
  endswith s "" = true /\
  endswith s s = true.
Proof.
  split; [split | split].
  - induction s as [| c s IH]; cbn [endswith]; intros H.
    + rewrite orb_false_r in H. apply String.eqb_eq in H.
      exists ""%string. exact H.
    + apply orb_true_iff in H as [H | H].
      * apply String.eqb_eq in H. exists ""%string. exact H.
      * destruct (IH H) as [pre Hpre]. exists (String c pre).
        cbn [append]. now rewrite Hpre.
  - intros [pre ->]. apply endswith_append.
  - induction s as [| c s IH]; cbn [endswith]; [reflexivity |].
    rewrite IH. apply orb_true_r.
  - destruct s; cbn [endswith]; rewrite String.eqb_refl; reflexivity.
Qed.

Lemma endswith_is_suffix_witness :
  exists pre : string, "Label.png"%string = (pre ++ ".png")%string.
Proof.
  exact (proj1 (proj1 (endswith_is_suffix "Label.png" ".png")) eq_refl).
Defined.

Lemma before_last_dot_none (s : string) :
  has_dot s = false -> before_last_dot s = None.
Proof.
  induction s as [| c s IH]; cbn; [reflexivity |].
  intros H. apply orb_false_iff in H as [Hc Hs].
  now rewrite (IH Hs), Hc.
Qed.

Lemma before_last_dot_split (stem ext : string) :
  has_dot ext = false ->
  before_last_dot (stem ++ String "." ext) = Some stem.
Proof.
  intros Hext. induction stem as [| c stem IH]; cbn [append before_last_dot].
  - now rewrite (before_last_dot_none ext Hext).
  - now rewrite IH.
Qed.

Lemma before_last_dot_prefix (s : string) :
  forall b : string,
    before_last_dot s = Some b ->
    exists ext : string, s = (b ++ String "." ext)%string /\ has_dot ext = false.
Proof.
  induction s as [| c s IH]; intros b H; cbn in H; [discriminate |].
  destruct (before_last_dot s) as [b' |] eqn:Hs.
  - injection H as <-. destruct (IH b' eq_refl) as (ext & -> & Hext).
    exists ext. split; [reflexivity | exact Hext].
  - destruct (Ascii.eqb_spec c ".") as [-> | Hc]; [| discriminate].
    injection H as <-. exists s. split; [reflexivity |].
    clear IH. induction s as [| d s IHs]; [reflexivity |].
    cbn in Hs |- *. destruct (before_last_dot s); [discriminate |].
    destruct (Ascii.eqb d "."); [discriminate |]. now apply IHs.
Qed.

(** X15.  The base name of the download is the uploaded name without its
    last extension: a name [stem.ext] whose [ext] has no dot gives [stem],
    also when [stem] has dots or is empty, and a name without a dot is kept
    whole.  Whatever the name, it is the base name followed by nothing or by
    a dot and a dot-free extension. *)
Theorem base_name_drops_last_extension (name : string) :
  (has_dot name = false -> rsplit_dot_head name = name) /\
  (forall stem ext : string,
     has_dot ext = false ->
     rsplit_dot_head (stem ++ String "." ext) = stem) /\
  (name = rsplit_dot_head name \/
   exists ext : string,
     name = (rsplit_dot_head name ++ String "." ext)%string /\
     has_dot ext = false).
Proof.
  unfold rsplit_dot_head. split; [| split].
  - intros H. now rewrite before_last_dot_none.
  - intros stem ext H. now rewrite before_last_dot_split.
  - destruct (before_last_dot name) as [b |] eqn:Hb.
    + right. exact (before_last_dot_prefix name b Hb).
    + left. reflexivity.
Qed.

Lemma base_name_drops_last_extension_witness :
  rsplit_dot_head "jar.labels.v2.PDF" = "jar.labels.v2"%string.
Proof.
  exact (proj1 (proj2 (base_name_drops_last_extension ""))
           "jar.labels.v2"%string "PDF"%string eq_refl).
Defined.

(** ** The gap in the file name *)

Lemma py_round_floor_or_next (x : Q) :
  (py_round x = Qfloor x /\ x - inject_Z (Qfloor x) <= 1 # 2) \/
  (py_round x = (Qfloor x + 1)%Z /\ 1 # 2 <= x - inject_Z (Qfloor x)).
Proof.
  unfold py_round.
  destruct (Qcompare_spec (x - inject_Z (Qfloor x)) (1 # 2)) as [H | H | H].
  - destruct (Z.even (Qfloor x)); [left | right]; split;
      try reflexivity; rewrite H; apply Qle_refl.
  - left. split; [reflexivity | now apply Qlt_le_weak].
  - right. split; [reflexivity | now apply Qlt_le_weak].
Qed.

Lemma py_round_monotone (x y : Q) : x <= y -> (py_round x <= py_round y)%Z.
Proof.
  intros Hxy. pose proof (Qfloor_resp_le x y Hxy) as Hf.
  destruct (Z.eq_dec (Qfloor x) (Qfloor y)) as [Heq | Hne].
  - unfold py_round. rewrite <- Heq.
    destruct (Qcompare_spec (x - inject_Z (Qfloor x)) (1 # 2)) as [Hx | Hx | Hx];
      destruct (Qcompare_spec (y - inject_Z (Qfloor x)) (1 # 2)) as [Hy | Hy | Hy];
      try (exfalso; lra); destruct (Z.even (Qfloor x)); lia.
  - destruct (py_round_floor_or_next x) as [[Hx _] | [Hx _]];
      destruct (py_round_floor_or_next y) as [[Hy _] | [Hy _]]; lia.
Qed.

Lemma Qlt_floor_succ (x : Q) : x < inject_Z (Qfloor x) + 1.
Proof.
  pose proof (Qlt_floor x) as H. rewrite inject_Z_plus in H. exact H.
Qed.

Lemma py_round_integer (n : Z) : py_round (inject_Z n) = n.
Proof.
  unfold py_round. rewrite Qfloor_Z.
  destruct (Qcompare_spec (inject_Z n - inject_Z n) (1 # 2)) as [H | H | H];
    [exfalso; lra | reflexivity | exfalso; lra].
Qed.

Lemma Qfloor_half (n : Z) : Qfloor (inject_Z n + (1 # 2)) = n.
Proof.
  pose proof (Qfloor_le (inject_Z n + (1 # 2))) as Hlo.
  pose proof (Qlt_floor_succ (inject_Z n + (1 # 2))) as Hhi.
  set (f := Qfloor (inject_Z n + (1 # 2))) in *.
  assert (H1 : inject_Z f < inject_Z (n + 1)).
  { rewrite inject_Z_plus. change (inject_Z 1) with 1. lra. }
  assert (H2 : inject_Z n < inject_Z (f + 1)).
  { rewrite inject_Z_plus. change (inject_Z 1) with 1. lra. }
  rewrite <- Zlt_Qlt in H1, H2. lia.
Qed.

Lemma py_round_half (n : Z) :
  py_round (inject_Z n + (1 # 2)) = (if Z.even n then n else n + 1)%Z.
Proof.
  unfold py_round. rewrite Qfloor_half.
  destruct (Qcompare_spec (inject_Z n + (1 # 2) - inject_Z n) (1 # 2))
    as [H | H | H]; [reflexivity | exfalso; lra | exfalso; lra].
Qed.

(** X16.  The integer put in the file name is the gap rounded to the nearest
    integer: it differs from the gap by at most one half, an integer gap is
    kept, a gap half way between two integers goes to the even one, and a
    larger gap never gets a smaller integer. *)
Theorem file_name_gap_is_nearest_integer (gap_mm : Q) :
  - (1 # 2) <= inject_Z (py_round gap_mm) - gap_mm <= 1 # 2 /\
  (forall n : Z, py_round (inject_Z n) = n) /\
  (forall n : Z,
     py_round (inject_Z n + (1 # 2)) = (if Z.even n then n else n + 1)%Z /\
     Z.even (py_round (inject_Z n + (1 # 2))) = true) /\
  (forall other : Q, gap_mm <= other -> (py_round gap_mm <= py_round other)%Z).
Proof.
  split; [| split; [| split]].
  - pose proof (Qfloor_le gap_mm) as Hlo.
    pose proof (Qlt_floor_succ gap_mm) as Hhi.
    destruct (py_round_floor_or_next gap_mm) as [[-> H] | [-> H]].
    + split; lra.
    + rewrite inject_Z_plus. change (inject_Z 1) with 1. split; lra.
  - exact py_round_integer.
  - intros n. split; [apply py_round_half |].
    rewrite py_round_half. destruct (Z.even n) eqn:He; [exact He |].
    rewrite Z.even_add, He. reflexivity.
  - intros other. apply py_round_monotone.
Qed.

Lemma file_name_gap_is_nearest_integer_witness :
  (py_round (5 # 2) <= py_round (7 # 2))%Z.
Proof.
  exact (proj2 (proj2 (proj2 (file_name_gap_is_nearest_integer (5 # 2))))
           (7 # 2) ltac:(discriminate)).
Defined.

Lemma lower_append (a b : string) : lower (a ++ b) = (lower a ++ lower b)%string.
Proof. induction a as [| c a IH]; cbn; [reflexivity | now rewrite IH]. Qed.

Lemma append_assoc (a b c : string) :
  ((a ++ b) ++ c)%string = (a ++ (b ++ c))%string.
Proof. induction a as [| d a IH]; cbn; [reflexivity | now rewrite IH]. Qed.

Lemma out_name_lower_ends_with_pdf (uploaded_name : string) (gap_mm : Q) :
  endswith (lower (out_name uploaded_name gap_mm)) ".pdf" = true.
Proof.
  unfold out_name.
  change "mm.pdf"%string with ("mm" ++ ".pdf")%string.
  rewrite <- !append_assoc, lower_append.
  change (lower ".pdf") with ".pdf"%string.
  apply endswith_append.
Qed.

(** X17.  The name given to the download always ends with [.pdf], so that a
    downloaded file uploaded again under that name is opened as a PDF.  The
    name does not determine the gap: an even whole number of millimetres and
    that number plus one half are different gaps with the same name. *)
Theorem out_name_is_a_pdf_name {F : Fitz} (uploaded_name : string) (gap_mm : Q) :
  endswith (out_name uploaded_name gap_mm) ".pdf" = true /\
  (forall file_bytes : Bytes,
     eval (_open_as_pdf file_bytes (out_name uploaded_name gap_mm))
     = fitz_open file_bytes "pdf") /\
  (forall n : Z,
     Z.even n = true ->
     out_name uploaded_name (inject_Z n + (1 # 2))
     = out_name uploaded_name (inject_Z n) /\
     inject_Z n < inject_Z n + (1 # 2)).
Proof.
  split; [| split].
  - unfold out_name.
    change "mm.pdf"%string with ("mm" ++ ".pdf")%string.
    rewrite <- !append_assoc. apply endswith_append.
  - intros file_bytes. unfold eval, _open_as_pdf.
    now rewrite out_name_lower_ends_with_pdf.
  - intros n He. split.
    + unfold out_name. now rewrite py_round_half, He, py_round_integer.
    + lra.
Qed.

Lemma out_name_is_a_pdf_name_witness :
  out_name "labels.pdf" (inject_Z 2 + (1 # 2)) = out_name "labels.pdf" (inject_Z 2).
Proof.
  exact (proj1 (proj2 (proj2 (out_name_is_a_pdf_name (F := Sim.lib) "labels.pdf" 0))
                  2%Z eq_refl)).
Defined.
